(** * STRling.js: the [simply] pattern builders

    A shallow embedding of [src/STRling/simply/static.js]: the named
    character-class factories ([digit], [notTab], ...) and the six
    lookaround constructors ([ahead], [notAhead], [behind], [notBehind],
    [has], [hasNot]).

    JavaScript objects live in a store and are handed around by reference,
    so the functions are written in a small state-and-exception monad over
    that store.  [Pattern], [lit] and [STRlingError] are imported by the
    source from [./pattern.js], a module that is not embedded here; what
    the source needs of them is modelled from the specification and marked
    as such. *)

From Stdlib Require Import ZArith String Ascii List Bool Lia DecimalString.
From stdpp Require Import base list strings.

Local Open Scope string_scope.
Local Open Scope Z_scope.

(** ** JavaScript values and the object store *)

(** Modelled from the spec: the fields of a [Pattern] instance, a class
    declared in [pattern.js].  "Fragment": the raw regex text and three
    classification flags. *)
Record Pattern : Type := mkPattern {
  text : string;
  isAtomic : bool;
  isNegatedClass : bool;
  isComposite : bool
}.

(** What a store cell holds: a [Pattern] instance, or an object of any
    other class (a plain object, an array, ...). *)
Inductive object : Type :=
| OPattern (p : Pattern)
| OOther.

(** Values a caller can pass.  Numbers are kept to the integers, which is
    all a repetition count can meaningfully be. *)
Inductive value : Type :=
| VUndefined
| VNull
| VBoolean (b : bool)
| VNumber (n : Z)
| VString (s : string)
| VObject (l : nat).

(** The store: cell [l] is the object behind [VObject l].  [new] appends. *)
Abbreviation heap := (list object).

(** Modelled from the spec: the error class [STRlingError] of [pattern.js].
    The source builds it from a message alone; the specification (error
    handling design) sorts the errors into two kinds by the condition that
    was violated. *)
Inductive ErrorKind : Type := InvalidArgument | InvalidQuantifier.

Record STRlingError : Type := mkError {
  kind : ErrorKind;
  message : string
}.

Inductive outcome (A : Type) : Type :=
| Return (a : A)
| Throw (e : STRlingError).
Arguments Return {A} a.
Arguments Throw {A} e.

(** ** The monad of JavaScript function bodies *)

Definition JS (A : Type) : Type := heap -> heap * outcome A.

Definition ret {A} (a : A) : JS A := fun h => (h, Return a).

Definition throw {A} (e : STRlingError) : JS A := fun h => (h, Throw e).

Definition bind {A B} (m : JS A) (k : A -> JS B) : JS B :=
  fun h =>
    match m h with
    | (h1, Return a) => k a h1
    | (h1, Throw e) => (h1, Throw e)
    end.

Declare Scope js_scope.
Delimit Scope js_scope with js.
Notation "x <- m ;; k" := (bind m (fun x => k))
  (at level 100, m at next level, right associativity) : js_scope.
Local Open Scope js_scope.

(** [new C(...)]: a fresh cell at the end of the store. *)
Definition alloc (o : object) : JS value :=
  fun h => ((h ++ [o])%list, Return (VObject (length h))).

(** The [Pattern] behind a value, if the value is a [Pattern] instance. *)
Definition deref (h : heap) (v : value) : option Pattern :=
  match v with
  | VObject l =>
      match h !! l with
      | Some (OPattern p) => Some p
      | _ => None
      end
  | _ => None
  end.

(** [v instanceof Pattern]. *)
Definition instanceof_Pattern (v : value) : JS bool :=
  fun h => (h, Return match deref h v with
                      | Some _ => true
                      | None => false
                      end).

(** ** Parts of [pattern.js] the source relies on *)

Definition flag (b : option bool) : bool :=
  match b with Some x => x | None => false end.

(** Modelled from the spec: the [Pattern] constructor of [pattern.js].
    "makeFragment(text, isAtomic=false, isNegatedClass=false,
    isComposite=false)": an omitted flag is false, and nothing is inferred
    from the text. *)
Definition makeFragment (t : string) (atomic negated composite : option bool)
  : Pattern :=
  {| text := t;
     isAtomic := flag atomic;
     isNegatedClass := flag negated;
     isComposite := flag composite |}.

(** [new Pattern(text, a, b)], the positional form used by the factories. *)
Definition new_Pattern (t : string) (atomic negated : option bool) : JS value :=
  alloc (OPattern (makeFragment t atomic negated None)).

(** [new Pattern({ pattern: text, composite: c })], the form used by the
    lookaround constructors. *)
Definition new_Pattern_of (t : string) (composite : option bool) : JS value :=
  alloc (OPattern (makeFragment t None None composite)).

(** Modelled from the spec: coercion of a [Pattern] to a string.
    "Fragment must support coercion to its rendered text wherever it is
    interpolated into a template". *)
Definition toString (p : Pattern) : string := text p.

Definition decimal (n : Z) : string := NilZero.string_of_int (Z.to_int n).

(** [`${v}`]: a [Pattern] renders through [toString], the other values as
    the language prescribes. *)
Definition interpolate (v : value) : JS string :=
  fun h =>
    (h, Return match v with
               | VUndefined => "undefined"
               | VNull => "null"
               | VBoolean b => if b then "true" else "false"
               | VNumber n => decimal n
               | VString s => s
               | VObject _ =>
                   match deref h v with
                   | Some p => toString p
                   | None => "[object Object]"
                   end
               end).

(** Modelled from the spec: the escaper.  The metacharacters are
    [. * + ? ( ) [ ] { } ^ $ | \]; each is preceded by the escape marker of
    the dialect, a backslash. *)
Definition metacharacters : list ascii :=
  list_ascii_of_string ".*+?()[]{}^$|\".

Definition is_metacharacter (c : ascii) : bool :=
  existsb (Ascii.eqb c) metacharacters.

Fixpoint escapeLiteral (s : string) : string :=
  match s with
  | EmptyString => EmptyString
  | String c s' =>
      if is_metacharacter c
      then String "\" (String c (escapeLiteral s'))
      else String c (escapeLiteral s')
  end.

(** Modelled from the spec: the fragment of a literal.  "Literal-string
    inputs are passed through escapeLiteral first and the resulting
    Fragment is marked non-atomic unless the escaped text happens to be a
    single character." *)
Definition literal (s : string) : Pattern :=
  let t := escapeLiteral s in
  makeFragment t (Some (Nat.eqb (String.length t) 1)) None None.

(** Modelled from the spec: [lit], the literal constructor of [pattern.js];
    it always succeeds. *)
Definition lit (s : string) : JS value := alloc (OPattern (literal s)).

(** ** The lookaround constructors *)

Definition LF : string := String "010" EmptyString.
Definition DQUOTE : string := String "034" EmptyString.

(** The message template shared, up to the method name, by the six
    constructors. *)
Definition argument_message (method : string) : string :=
  LF +:+ "    Method: simply." +:+ method +:+ "(pattern)" +:+ LF
  +:+ LF
  +:+ "    The parameter must be an instance of Pattern or string." +:+ LF
  +:+ LF
  +:+ "    Use a string such as " +:+ DQUOTE +:+ "123abc$" +:+ DQUOTE
  +:+ " to match literal characters, or use a predefined set like simply.letter()."
  +:+ LF
  +:+ "    ".

Definition ahead (pattern : value) : JS value :=
  pattern <- match pattern with
             | VString s => lit s
             | _ => ret pattern
             end;;
  is_pattern <- instanceof_Pattern pattern;;
  if negb is_pattern
  then throw (mkError InvalidArgument (argument_message "ahead"))
  else
    p <- interpolate pattern;;
    new_Pattern_of ("(?=" +:+ p +:+ ")") (Some true).

Definition notAhead (pattern : value) : JS value :=
  pattern <- match pattern with
             | VString s => lit s
             | _ => ret pattern
             end;;
  is_pattern <- instanceof_Pattern pattern;;
  if negb is_pattern
  then throw (mkError InvalidArgument (argument_message "notAhead"))
  else
    p <- interpolate pattern;;
    new_Pattern_of ("(?!" +:+ p +:+ ")") (Some true).

Definition behind (pattern : value) : JS value :=
  pattern <- match pattern with
             | VString s => lit s
             | _ => ret pattern
             end;;
  is_pattern <- instanceof_Pattern pattern;;
  if negb is_pattern
  then throw (mkError InvalidArgument (argument_message "behind"))
  else
    p <- interpolate pattern;;
    new_Pattern_of ("(?<=" +:+ p +:+ ")") (Some true).

Definition notBehind (pattern : value) : JS value :=
  pattern <- match pattern with
             | VString s => lit s
             | _ => ret pattern
             end;;
  is_pattern <- instanceof_Pattern pattern;;
  if negb is_pattern
  then throw (mkError InvalidArgument (argument_message "notBehind"))
  else
    p <- interpolate pattern;;
    new_Pattern_of ("(?<!" +:+ p +:+ ")") (Some true).

Definition has (pattern : value) : JS value :=
  pattern <- match pattern with
             | VString s => lit s
             | _ => ret pattern
             end;;
  is_pattern <- instanceof_Pattern pattern;;
  if negb is_pattern
  then throw (mkError InvalidArgument (argument_message "has"))
  else
    p <- interpolate pattern;;
    new_Pattern_of ("(?=.*" +:+ p +:+ ")") (Some true).

Definition hasNot (pattern : value) : JS value :=
  pattern <- match pattern with
             | VString s => lit s
             | _ => ret pattern
             end;;
  is_pattern <- instanceof_Pattern pattern;;
  if negb is_pattern
  then throw (mkError InvalidArgument (argument_message "hasNot"))
  else
    p <- interpolate pattern;;
    new_Pattern_of ("(?!.*" +:+ p +:+ ")") (Some true).

(** ** The named-class factories *)

(** The factories end in [.call(minRep, maxRep)], a method of [Pattern]
    defined in [pattern.js]; they are embedded over any such method. *)
Section Factories.

Variable call : value -> value -> value -> JS value.

Definition special_characters : string :=
  "!" +:+ DQUOTE +:+ "#$%&'()*+,-./:;<=>?@[\]^_`{|}~".

Definition alphaNum (minRep maxRep : value) : JS value :=
  this <- new_Pattern "[A-Za-z0-9]" (Some true) None;;
  call this minRep maxRep.

Definition notAlphaNum (minRep maxRep : value) : JS value :=
  this <- new_Pattern "[^A-Za-z0-9]" (Some true) (Some true);;
  call this minRep maxRep.

Definition specialChar (minRep maxRep : value) : JS value :=
  special <- lit special_characters;;
  special <- interpolate special;;
  this <- new_Pattern ("[" +:+ special +:+ "]") (Some true) None;;
  call this minRep maxRep.

Definition notSpecialChar (minRep maxRep : value) : JS value :=
  special <- lit special_characters;;
  special <- interpolate special;;
  this <- new_Pattern ("[^" +:+ special +:+ "]") (Some true) (Some true);;
  call this minRep maxRep.

Definition letter (minRep maxRep : value) : JS value :=
  this <- new_Pattern "[A-Za-z]" (Some true) None;;
  call this minRep maxRep.

Definition notLetter (minRep maxRep : value) : JS value :=
  this <- new_Pattern "[^A-Za-z]" (Some true) (Some true);;
  call this minRep maxRep.

Definition upper (minRep maxRep : value) : JS value :=
  this <- new_Pattern "[A-Z]" (Some true) None;;
  call this minRep maxRep.

Definition notUpper (minRep maxRep : value) : JS value :=
  this <- new_Pattern "[^A-Z]" (Some true) (Some true);;
  call this minRep maxRep.

Definition lower (minRep maxRep : value) : JS value :=
  this <- new_Pattern "[a-z]" (Some true) None;;
  call this minRep maxRep.

Definition notLower (minRep maxRep : value) : JS value :=
  this <- new_Pattern "[^a-z]" (Some true) (Some true);;
  call this minRep maxRep.

Definition digit (minRep maxRep : value) : JS value :=
  this <- new_Pattern "\d" None None;;
  call this minRep maxRep.

Definition notDigit (minRep maxRep : value) : JS value :=
  this <- new_Pattern "\D" None None;;
  call this minRep maxRep.

Definition hexDigit (minRep maxRep : value) : JS value :=
  this <- new_Pattern "[A-Fa-f\d]" None None;;
  call this minRep maxRep.

Definition notHexDigit (minRep maxRep : value) : JS value :=
  this <- new_Pattern "[^A-Fa-f\d]" None None;;
  call this minRep maxRep.

Definition whitespace (minRep maxRep : value) : JS value :=
  this <- new_Pattern "\s" None None;;
  call this minRep maxRep.

Definition notWhitespace (minRep maxRep : value) : JS value :=
  this <- new_Pattern "\S" None None;;
  call this minRep maxRep.

Definition newline (minRep maxRep : value) : JS value :=
  this <- new_Pattern "\n" None None;;
  call this minRep maxRep.

Definition notNewline (minRep maxRep : value) : JS value :=
  this <- new_Pattern "." None None;;
  call this minRep maxRep.

Definition tab (minRep maxRep : value) : JS value :=
  this <- new_Pattern "\t" None None;;
  call this minRep maxRep.

Definition notTab (minRep maxRep : value) : JS value :=
  this <- new_Pattern "\T" None None;;
  call this minRep maxRep.

Definition carriage (minRep maxRep : value) : JS value :=
  this <- new_Pattern "\r" None None;;
  call this minRep maxRep.

Definition notCarriage (minRep maxRep : value) : JS value :=
  this <- new_Pattern "." None None;;
  call this minRep maxRep.

Definition bound (minRep maxRep : value) : JS value :=
  this <- new_Pattern "\b" None None;;
  call this minRep maxRep.

Definition notBound (minRep maxRep : value) : JS value :=
  this <- new_Pattern "\B" None None;;
  call this minRep maxRep.

Definition start : JS value := new_Pattern "^" None None.

Definition end_ : JS value := new_Pattern "$" None None.

End Factories.

(** ** The quantifier applier and the composer *)

(** The three shapes of a repetition request the specification describes:
    no bound, a minimum alone, both bounds. *)
Inductive Repetition : Type :=
| NoBounds
| Exactly (min : Z)
| Between (min max : Z).

Inductive verdict : Type :=
| Ok (f : Pattern)
| Fail (k : ErrorKind).

Definition suffix (r : Repetition) : string :=
  match r with
  | NoBounds => ""
  | Exactly min => "{" +:+ decimal min +:+ "}"
  | Between min max => "{" +:+ decimal min +:+ "," +:+ decimal max +:+ "}"
  end.

(** The grouping rule: a fragment that is not atomic goes into a
    non-capturing group before it takes a suffix. *)
Definition grouped (f : Pattern) : string :=
  if isAtomic f then text f else "(?:" +:+ text f +:+ ")".

Definition repeated (f : Pattern) (r : Repetition) : Pattern :=
  makeFragment (grouped f +:+ suffix r) (Some false) (Some false) (Some false).

(** Modelled from the spec: [quantify], the work of [Pattern.call] in
    [pattern.js].  Without bounds the fragment comes back unchanged.  A
    minimum alone asks for exactly that many occurrences and must be
    positive: zero is rejected.  With both bounds, both are non-negative,
    the minimum is at most the maximum, and they are not both zero.  A
    composite fragment takes no quantifier.  The result is marked
    non-atomic, not negated and not composite. *)
Definition quantify (f : Pattern) (r : Repetition) : verdict :=
  match r with
  | NoBounds => Ok f
  | Exactly min =>
      if isComposite f then Fail InvalidQuantifier
      else if min <? 0 then Fail InvalidQuantifier
      else if min =? 0 then Fail InvalidQuantifier
      else Ok (repeated f r)
  | Between min max =>
      if isComposite f then Fail InvalidQuantifier
      else if (min <? 0) || (max <? 0) then Fail InvalidQuantifier
      else if max <? min then Fail InvalidQuantifier
      else if (min =? 0) && (max =? 0) then Fail InvalidQuantifier
      else Ok (repeated f r)
  end.

(** Modelled from the spec: [merge] on fragments.  The texts are joined in
    argument order; the result is non-atomic, and composite exactly when
    there are several fragments of which one is composite.  No argument at
    all is an error. *)
Definition merge (fs : list Pattern) : verdict :=
  match fs with
  | [] => Fail InvalidArgument
  | _ =>
      Ok (makeFragment (String.concat "" (map text fs))
            (Some false) None
            (Some ((1 <? length fs)%nat && existsb isComposite fs)))
  end.

(** *** The two operations over the store *)

(** The arguments of [call] read as a repetition request.  Any other
    combination (a bound that is no number, a maximum without a minimum)
    is a malformed request. *)
Definition repetition_of (minRep maxRep : value) : option Repetition :=
  match minRep, maxRep with
  | VUndefined, VUndefined => Some NoBounds
  | VNumber min, VUndefined => Some (Exactly min)
  | VNumber min, VNumber max => Some (Between min max)
  | _, _ => None
  end.

(** The specification leaves the wording of a message open. *)
Definition unspecified_message : string := "".

Definition deliver (r : verdict) : JS value :=
  match r with
  | Ok f => alloc (OPattern f)
  | Fail k => throw (mkError k unspecified_message)
  end.

(** Modelled from the spec: the method [Pattern.call] of [pattern.js], as
    [quantify] on the receiver.  "Each new Fragment is built from, but
    never mutates, its inputs"; without bounds the receiver itself is
    returned; a malformed request is an [InvalidQuantifier].  A receiver
    that is no [Pattern] cannot reach a method of the class; the model
    answers it with the wrong-type error. *)
Definition Pattern_call (this minRep maxRep : value) : JS value :=
  fun h =>
    match deref h this with
    | None => throw (mkError InvalidArgument unspecified_message) h
    | Some f =>
        match repetition_of minRep maxRep with
        | None => throw (mkError InvalidQuantifier unspecified_message) h
        | Some NoBounds => ret this h
        | Some r => deliver (quantify f r) h
        end
    end.

Fixpoint fragments (h : heap) (args : list value) : option (list Pattern) :=
  match args with
  | [] => Some []
  | v :: rest =>
      match deref h v, fragments h rest with
      | Some f, Some fs => Some (f :: fs)
      | _, _ => None
      end
  end.

(** Modelled from the spec: the variadic [merge] of [pattern.js], as
    [merge] on the fragments behind its arguments; an argument that is no
    fragment is of the wrong type. *)
Definition simply_merge (args : list value) : JS value :=
  fun h =>
    match fragments h args with
    | None => throw (mkError InvalidArgument unspecified_message) h
    | Some fs => deliver (merge fs) h
    end.

(** ** Reading results *)

(** The fragment a caller may pass: a string stands for its literal. *)
Definition pattern_input (h : heap) (v : value) : option Pattern :=
  match v with
  | VString s => Some (literal s)
  | _ => deref h v
  end.

Definition typeof_string (v : value) : bool :=
  match v with VString _ => true | _ => false end.

Definition is_Pattern (h : heap) (v : value) : bool :=
  match deref h v with Some _ => true | None => false end.

(** What a finished call hands back: the error, or the fragment behind the
    returned value in the final store. *)
Definition result_of (r : heap * outcome value) : outcome (option Pattern) :=
  match r with
  | (h, Return v) => Return (deref h v)
  | (_, Throw e) => Throw e
  end.

Definition rendered (r : heap * outcome value) : option string :=
  match result_of r with
  | Return (Some f) => Some (text f)
  | _ => None
  end.

Definition thrown (r : heap * outcome value) : option STRlingError :=
  match r with
  | (_, Throw e) => Some e
  | (_, Return _) => None
  end.

(** [needle] occurs in [s]. *)
Definition mentions (needle s : string) : bool :=
  match String.index 0 needle s with
  | Some _ => true
  | None => false
  end.

(** ** The six constructors, seen together *)

(** The common body of the six constructors. *)
Definition lookaround (method opening : string) (pattern : value) : JS value :=
  pattern <- match pattern with
             | VString s => lit s
             | _ => ret pattern
             end;;
  is_pattern <- instanceof_Pattern pattern;;
  if negb is_pattern
  then throw (mkError InvalidArgument (argument_message method))
  else
    p <- interpolate pattern;;
    new_Pattern_of (opening +:+ p +:+ ")") (Some true).

Definition wrapped (opening : string) (f : Pattern) : Pattern :=
  makeFragment (opening +:+ text f +:+ ")") None None (Some true).

(** The store after the argument has been turned into a fragment. *)
Definition converted (h : heap) (v : value) : heap :=
  match v with
  | VString s => (h ++ [OPattern (literal s)])%list
  | _ => h
  end.

(** The six constructors by name, with the opening of the group each one
    writes. *)
Definition constructors : list (string * string * (value -> JS value)) :=
  [ ("ahead", "(?=", ahead);
    ("notAhead", "(?!", notAhead);
    ("behind", "(?<=", behind);
    ("notBehind", "(?<!", notBehind);
    ("has", "(?=.*", has);
    ("hasNot", "(?!.*", hasNot) ].

(** ** The factories: what they are built from *)

(** [m] constructs the fragment [f] and hands it, as receiver, to [call]
    with the bounds [minRep] and [maxRep]; nothing else happens to the
    cells already in the store. *)
Definition built_from (m : JS value) (call : value -> value -> value -> JS value)
    (minRep maxRep : value) (f : Pattern) : Prop :=
  forall h : heap,
    exists k : heap,
      m h = call (VObject (length (h ++ k))) minRep maxRep
              (h ++ k ++ [OPattern f])%list.

(** The receiver seen from outside: a [call] that hands it back. *)
Definition receiver : value -> value -> value -> JS value :=
  fun this _ _ => ret this.

(** ** A fragment of the dialect: escapes outside a class *)

(** ECMAScript regular expressions, without the unicode flag: what a
    backslash followed by the character [c] stands for. *)
Inductive escape : Type :=
| ControlEscape (code : ascii)
| ClassEscape (c : ascii)
| BoundaryAssertion (c : ascii)
| NumericOrNamedEscape (c : ascii)
| IdentityEscape (c : ascii).

Definition one_of (s : string) (c : ascii) : bool :=
  existsb (Ascii.eqb c) (list_ascii_of_string s).

Definition escape_of (c : ascii) : escape :=
  if Ascii.eqb c "t" then ControlEscape "009"
  else if Ascii.eqb c "n" then ControlEscape "010"
  else if Ascii.eqb c "v" then ControlEscape "011"
  else if Ascii.eqb c "f" then ControlEscape "012"
  else if Ascii.eqb c "r" then ControlEscape "013"
  else if one_of "dDsSwW" c then ClassEscape c
  else if one_of "bB" c then BoundaryAssertion c
  else if one_of "0123456789cxuk" c then NumericOrNamedEscape c
  else IdentityEscape c.

(** The characters an escape that stands for one character matches. *)
Definition escape_matches (c x : ascii) : option bool :=
  match escape_of c with
  | ControlEscape code => Some (Ascii.eqb x code)
  | IdentityEscape c' => Some (Ascii.eqb x c')
  | _ => None
  end.

(** ** The calls on the core, over the store *)

(** The calls a client can make on the core. *)
Inductive core_call : Type :=
| call_ahead (pattern : value)
| call_notAhead (pattern : value)
| call_behind (pattern : value)
| call_notBehind (pattern : value)
| call_has (pattern : value)
| call_hasNot (pattern : value)
| call_quantify (this minRep maxRep : value)
| call_merge (args : list value)
| call_lit (s : string)
| call_new (t : string) (atomic negated composite : option bool).

Definition perform (c : core_call) : JS value :=
  match c with
  | call_ahead v => ahead v
  | call_notAhead v => notAhead v
  | call_behind v => behind v
  | call_notBehind v => notBehind v
  | call_has v => has v
  | call_hasNot v => hasNot v
  | call_quantify this minRep maxRep => Pattern_call this minRep maxRep
  | call_merge args => simply_merge args
  | call_lit s => lit s
  | call_new t atomic negated composite =>
      alloc (OPattern (makeFragment t atomic negated composite))
  end.

(** The arguments of a call that may stand for fragments; the bounds of a
    [call] are read as plain numbers. *)
Definition arguments (c : core_call) : list value :=
  match c with
  | call_ahead v | call_notAhead v | call_behind v
  | call_notBehind v | call_has v | call_hasNot v => [v]
  | call_quantify this _ _ => [this]
  | call_merge args => args
  | call_lit s => [VString s]
  | call_new _ _ _ _ => []
  end.

(** The arguments of [c] stand for the same fragments in both stores. *)
Definition same_fragments (h1 h2 : heap) (c : core_call) : Prop :=
  Forall (fun v => deref h1 v = deref h2 v) (arguments c).

(** A [call] without bounds: nothing is quantified and the receiver itself
    comes back. *)
Definition without_bounds (c : core_call) : bool :=
  match c with
  | call_quantify _ VUndefined VUndefined => true
  | _ => false
  end.

Definition call_result (o : option Pattern) (minRep maxRep : value)
  : outcome (option Pattern) :=
  match o with
  | None => Throw (mkError InvalidArgument unspecified_message)
  | Some f =>
      match repetition_of minRep maxRep with
      | None => Throw (mkError InvalidQuantifier unspecified_message)
      | Some r =>
          match quantify f r with
          | Ok g => Return (Some g)
          | Fail k => Throw (mkError k unspecified_message)
          end
      end
  end.

Definition merge_result (o : option (list Pattern)) : outcome (option Pattern) :=
  match o with
  | None => Throw (mkError InvalidArgument unspecified_message)
  | Some fs =>
      match merge fs with
      | Ok g => Return (Some g)
      | Fail k => Throw (mkError k unspecified_message)
      end
  end.

(** What a call does to the store: on failure nothing; on success it
    appends cells, the last of which is the result, unless it is a [call]
    without bounds, which leaves the store alone. *)
Definition store_effect (c : core_call) (h : heap)
    (r : heap * outcome value) : Prop :=
  match r with
  | (h', Throw _) => h' = h
  | (h', Return v) =>
      if without_bounds c then h' = h
      else exists (k : heap) (g : Pattern),
          h' = (h ++ k ++ [OPattern g])%list /\
          v = VObject (length (h ++ k))
  end.

(** ** The factories as a table *)

Definition factory : Type :=
  (value -> value -> value -> JS value) -> value -> value -> JS value.

(** The exported factories that end in [call], by name. *)
Definition factories : list (string * factory) :=
  [ ("alphaNum", alphaNum); ("notAlphaNum", notAlphaNum);
    ("specialChar", specialChar); ("notSpecialChar", notSpecialChar);
    ("letter", letter); ("notLetter", notLetter);
    ("upper", upper); ("notUpper", notUpper);
    ("lower", lower); ("notLower", notLower);
    ("digit", digit); ("notDigit", notDigit);
    ("hexDigit", hexDigit); ("notHexDigit", notHexDigit);
    ("whitespace", whitespace); ("notWhitespace", notWhitespace);
    ("newline", newline); ("notNewline", notNewline);
    ("tab", tab); ("notTab", notTab);
    ("carriage", carriage); ("notCarriage", notCarriage);
    ("bound", bound); ("notBound", notBound) ].

(** The fragment a computation hands back when run in the empty store. *)
Definition fragment_in_empty_store (m : JS value) : option Pattern :=
  match result_of (m []) with
  | Return f => f
  | Throw _ => None
  end.

(** The fragment a factory constructs, read through [receiver]. *)
Definition fragment_of (fac : factory) : option Pattern :=
  fragment_in_empty_store (fac receiver VUndefined VUndefined).

(** Name and text of every exported function of the factory module: the
    factories, then the two anchors. *)
Definition exported_texts : list (string * string) :=
  (flat_map (fun entry : string * factory =>
               match fragment_of entry.2 with
               | Some f => [(entry.1, text f)]
               | None => []
               end) factories
   ++ flat_map (fun entry : string * JS value =>
                  match fragment_in_empty_store entry.2 with
                  | Some f => [(entry.1, text f)]
                  | None => []
                  end) [("start", start); ("end", end_)])%list.

(** The pairs of a class factory and its negation. *)
Definition class_pairs : list (factory * factory) :=
  [ (alphaNum, notAlphaNum); (specialChar, notSpecialChar);
    (letter, notLetter); (upper, notUpper); (lower, notLower);
    (hexDigit, notHexDigit) ].

(** The printable ASCII characters that are neither a letter, a digit nor
    the space. *)
Definition is_punctuation (c : ascii) : bool :=
  let n := nat_of_ascii c in
  ((33 <=? n) && (n <=? 47) || (58 <=? n) && (n <=? 64) ||
   (91 <=? n) && (n <=? 96) || (123 <=? n) && (n <=? 126))%nat.

Fixpoint no_repeat (l : list ascii) : bool :=
  match l with
  | [] => true
  | c :: rest => negb (existsb (Ascii.eqb c) rest) && no_repeat rest
  end.

Definition starts_with (p s : string) : bool := String.prefix p s.

Definition ends_with (c : ascii) (s : string) : bool :=
  match rev (list_ascii_of_string s) with
  | last :: _ => Ascii.eqb last c
  | [] => false
  end.

(** * Properties *)

(** ** Lemmas on the store *)

Lemma deref_alloc (h : heap) (f : Pattern) :
  deref (h ++ [OPattern f])%list (VObject (length h)) = Some f.
Proof.
  unfold deref. by rewrite list_lookup_middle.
Qed.

Lemma deref_extend (h k : heap) (v : value) (f : Pattern) :
  deref h v = Some f -> deref (h ++ k)%list v = Some f.
Proof.
  destruct v as [| | | | |l]; simpl; try discriminate.
  destruct (h !! l) as [o|] eqn:E; [|discriminate].
  intros Ho. by rewrite (lookup_app_l_Some _ _ _ _ E).
Qed.

Lemma deref_fresh (h : heap) (l : nat) :
  (length h <= l)%nat -> deref h (VObject l) = None.
Proof.
  intros Hl. unfold deref. by rewrite lookup_ge_None_2.
Qed.

Lemma lookaround_run (method opening : string) (v : value) (h : heap) :
  lookaround method opening v h =
  match pattern_input h v with
  | None => (h, Throw (mkError InvalidArgument (argument_message method)))
  | Some f =>
      ((converted h v ++ [OPattern (wrapped opening f)])%list,
       Return (VObject (length (converted h v))))
  end.
Proof.
  unfold lookaround, bind.
  destruct v as [| | | | s | l];
    try reflexivity.
  - unfold lit, alloc, instanceof_Pattern, interpolate.
    cbn -[deref]. rewrite deref_alloc. cbn -[deref].
    rewrite deref_alloc. reflexivity.
  - unfold ret, instanceof_Pattern, interpolate, pattern_input.
    cbn -[deref].
    destruct (deref h (VObject l)) as [f|] eqn:E; cbn -[deref];
      [rewrite E|]; reflexivity.
Qed.

Lemma lookaround_result (method opening : string) (v : value) (h : heap) :
  result_of (lookaround method opening v h) =
  match pattern_input h v with
  | None => Throw (mkError InvalidArgument (argument_message method))
  | Some f => Return (Some (wrapped opening f))
  end.
Proof.
  rewrite lookaround_run.
  destruct (pattern_input h v) as [f|]; [|reflexivity].
  unfold result_of. by rewrite deref_alloc.
Qed.

Lemma lookaround_thrown (method opening : string) (v : value) (h : heap) :
  thrown (lookaround method opening v h) =
  match pattern_input h v with
  | None => Some (mkError InvalidArgument (argument_message method))
  | Some _ => None
  end.
Proof.
  rewrite lookaround_run. by destruct (pattern_input h v).
Qed.

Lemma pattern_input_None (h : heap) (v : value) :
  pattern_input h v = None <->
  typeof_string v = false /\ is_Pattern h v = false.
Proof.
  unfold is_Pattern.
  destruct v; cbn -[deref];
    try (destruct (deref h _)); split; intros; try tauto;
    try discriminate; destruct H; discriminate.
Qed.

Lemma constructors_lookaround name opening op :
  In (name, opening, op) constructors -> op = lookaround name opening.
Proof.
  unfold constructors. simpl.
  intros H. repeat destruct H as [H|H]; inversion H; reflexivity.
Qed.

(** ** The lookaround constructors: rendering, flags, argument check *)

(** C1. For an argument that is a Pattern instance, or a string standing
    for its literal, with fragment [P]: ahead renders [(?=P)], notAhead
    [(?!P)], behind [(?<=P)], notBehind [(?<!P)], has [(?=.*P)] and hasNot
    [(?!.*P)], where [P] is written as the text of the fragment. *)
Theorem lookaround_renders (h : heap) (v : value) (P : Pattern) :
  pattern_input h v = Some P ->
  rendered (ahead v h) = Some ("(?=" +:+ text P +:+ ")") /\
  rendered (notAhead v h) = Some ("(?!" +:+ text P +:+ ")") /\
  rendered (behind v h) = Some ("(?<=" +:+ text P +:+ ")") /\
  rendered (notBehind v h) = Some ("(?<!" +:+ text P +:+ ")") /\
  rendered (has v h) = Some ("(?=.*" +:+ text P +:+ ")") /\
  rendered (hasNot v h) = Some ("(?!.*" +:+ text P +:+ ")").
Proof.
  intros HP.
  assert (G : forall method opening,
             rendered (lookaround method opening v h)
             = Some (opening +:+ text P +:+ ")")).
  { intros. unfold rendered. by rewrite lookaround_result, HP. }
  repeat split; apply G.
Qed.

(** The three renderings the specification lists: [ahead("abc")], [notAhead]
    of the digit fragment, and [has(lit("x"))]. *)
Lemma lookaround_renders_examples :
  rendered (ahead (VString "abc") []) = Some "(?=abc)" /\
  rendered (notAhead (VObject 0) [OPattern (makeFragment "\d" None None None)])
  = Some "(?!\d)" /\
  rendered (has (VObject 0) [OPattern (literal "x")]) = Some "(?=.*x)".
Proof.
  split; [|split].
  - exact (proj1 (lookaround_renders [] (VString "abc") (literal "abc")
                    eq_refl)).
  - exact (proj1 (proj2 (lookaround_renders
                    [OPattern (makeFragment "\d" None None None)] (VObject 0)
                    (makeFragment "\d" None None None) eq_refl))).
  - exact (proj1 (proj2 (proj2 (proj2 (proj2 (lookaround_renders
                    [OPattern (literal "x")] (VObject 0)
                    (literal "x") eq_refl)))))).
Defined.

(** C2. For an argument that is a string or a Pattern instance, each of the
    six constructors returns a fragment with isComposite true, isAtomic
    false and isNegatedClass false; being non-atomic, it is not a unit that
    takes a repetition suffix directly. *)
Theorem lookaround_flags (name opening : string) (op : value -> JS value)
    (h : heap) (v : value) (P : Pattern) :
  In (name, opening, op) constructors ->
  pattern_input h v = Some P ->
  exists f, result_of (op v h) = Return (Some f) /\
            isComposite f = true /\
            isAtomic f = false /\
            isNegatedClass f = false.
Proof.
  intros Hop HP. rewrite (constructors_lookaround _ _ _ Hop).
  exists (wrapped opening P). by rewrite lookaround_result, HP.
Qed.

Lemma lookaround_flags_example :
  exists f, result_of (notBehind (VString "a.c") []) = Return (Some f) /\
            isComposite f = true /\
            isAtomic f = false /\
            isNegatedClass f = false.
Proof.
  apply (lookaround_flags "notBehind" "(?<!" notBehind [] (VString "a.c")
           (literal "a.c")).
  - simpl. right. right. right. left. reflexivity.
  - reflexivity.
Defined.

(** C3. Each of the six constructors fails exactly when its argument is
    neither a string nor a Pattern instance; the error is then an
    InvalidArgument whose message names the constructor.  A string is first
    turned into its literal, metacharacters escaped, and the call
    succeeds. *)
Theorem lookaround_argument_check (name opening : string)
    (op : value -> JS value) (h : heap) (v : value) :
  In (name, opening, op) constructors ->
  ((typeof_string v = false /\ is_Pattern h v = false) <->
   thrown (op v h)
   = Some (mkError InvalidArgument (argument_message name))) /\
  (forall e, thrown (op v h) = Some e ->
             e = mkError InvalidArgument (argument_message name) /\
             mentions ("simply." +:+ name +:+ "(") (message e) = true) /\
  (forall s, result_of (op (VString s) h)
             = Return (Some (wrapped opening (literal s))) /\
             text (literal s) = escapeLiteral s).
Proof.
  intros Hop. rewrite (constructors_lookaround _ _ _ Hop).
  assert (Hm : mentions ("simply." +:+ name +:+ "(") (argument_message name)
               = true).
  { unfold constructors in Hop. simpl in Hop.
    repeat destruct Hop as [Hop|Hop]; inversion Hop; reflexivity. }
  split; [|split].
  - rewrite <- pattern_input_None, lookaround_thrown.
    destruct (pattern_input h v); split; intros; try discriminate;
      reflexivity.
  - intros e. rewrite lookaround_thrown.
    destruct (pattern_input h v); intros He; [discriminate|].
    inversion He. simpl. split; [reflexivity | exact Hm].
  - intros s. by rewrite lookaround_result.
Qed.

Lemma lookaround_argument_check_example :
  ((typeof_string (VNumber 3) = false /\ is_Pattern [] (VNumber 3) = false) <->
   thrown (has (VNumber 3) [])
   = Some (mkError InvalidArgument (argument_message "has"))) /\
  (forall e, thrown (has (VNumber 3) []) = Some e ->
             e = mkError InvalidArgument (argument_message "has") /\
             mentions ("simply." +:+ "has" +:+ "(") (message e) = true) /\
  (forall s, result_of (has (VString s) [])
             = Return (Some (wrapped "(?=.*" (literal s))) /\
             text (literal s) = escapeLiteral s).
Proof.
  apply (lookaround_argument_check "has" "(?=.*" has [] (VNumber 3)).
  simpl. do 4 right. left. reflexivity.
Defined.

(** ** The factories: receivers and their flags *)

Lemma new_then_call call t atomic negated minRep maxRep :
  built_from (this <- new_Pattern t atomic negated;; call this minRep maxRep)
    call minRep maxRep (makeFragment t atomic negated None).
Proof.
  intros h. exists []. by rewrite app_nil_r.
Qed.

Lemma lit_then_new_then_call call s opening atomic negated minRep maxRep :
  built_from
    (special <- lit s;;
     special <- interpolate special;;
     this <- new_Pattern (opening +:+ special +:+ "]") atomic negated;;
     call this minRep maxRep)
    call minRep maxRep
    (makeFragment (opening +:+ escapeLiteral s +:+ "]") atomic negated None).
Proof.
  intros h. exists [OPattern (literal s)].
  unfold bind, lit, interpolate, new_Pattern, alloc. cbn -[deref].
  rewrite deref_alloc. cbn -[deref].
  by rewrite <- !app_assoc.
Qed.

(** C4. Whatever the repetition arguments, notNewline and notCarriage both
    construct the fragment with text [.], without any flag, and hand it to
    [call]: the two are the same operation and render the same text; no
    negated class is built for either character. *)
Theorem notNewline_notCarriage_any_character
    (call : value -> value -> value -> JS value) (minRep maxRep : value) :
  built_from (notNewline call minRep maxRep) call minRep maxRep
    (mkPattern "." false false false) /\
  built_from (notCarriage call minRep maxRep) call minRep maxRep
    (mkPattern "." false false false) /\
  notNewline call minRep maxRep = notCarriage call minRep maxRep /\
  (forall h, rendered (notNewline call minRep maxRep h)
             = rendered (notCarriage call minRep maxRep h)) /\
  (forall h, rendered (notNewline receiver minRep maxRep h) = Some ".") /\
  (forall h, rendered (notCarriage receiver minRep maxRep h) = Some ".").
Proof.
  repeat split; try reflexivity; try apply new_then_call.
  - intros h. unfold rendered, result_of. cbn -[deref].
    by rewrite deref_alloc.
  - intros h. unfold rendered, result_of. cbn -[deref].
    by rewrite deref_alloc.
Qed.

(** C9. Whatever the repetition arguments, notTab constructs the fragment
    with text [\T] and tab the one with text [\t].  In the dialect [\t] is
    the tab character, while [\T] is an identity escape: it matches the
    letter T and nothing else, so it is not "any character that is not a
    tab". *)
Theorem notTab_is_letter_T
    (call : value -> value -> value -> JS value) (minRep maxRep : value) :
  built_from (notTab call minRep maxRep) call minRep maxRep
    (mkPattern "\T" false false false) /\
  built_from (tab call minRep maxRep) call minRep maxRep
    (mkPattern "\t" false false false) /\
  (forall h, rendered (notTab receiver minRep maxRep h) = Some "\T") /\
  (forall h, rendered (tab receiver minRep maxRep h) = Some "\t") /\
  escape_of "t" = ControlEscape "009" /\
  escape_of "T" = IdentityEscape "T" /\
  (forall x, escape_matches "T" x = Some (Ascii.eqb x "T")) /\
  ~ (forall x, escape_matches "T" x = Some (negb (Ascii.eqb x "009"))).
Proof.
  repeat split; try reflexivity; try apply new_then_call.
  - intros h. unfold rendered, result_of. cbn -[deref].
    by rewrite deref_alloc.
  - intros h. unfold rendered, result_of. cbn -[deref].
    by rewrite deref_alloc.
  - intros H. specialize (H "a"%char). discriminate H.
Qed.

(** C10. notAlphaNum, notSpecialChar, notLetter, notUpper and notLower
    construct their fragment with the negated-class flag set (third
    constructor argument true); notDigit and notHexDigit construct [\D] and
    [[^A-Fa-f\d]] with no flag at all, so the fragment they construct and
    pass on is not marked as a negated class. *)
Theorem negated_class_flag
    (call : value -> value -> value -> JS value) (minRep maxRep : value) :
  built_from (notAlphaNum call minRep maxRep) call minRep maxRep
    (mkPattern "[^A-Za-z0-9]" true true false) /\
  built_from (notSpecialChar call minRep maxRep) call minRep maxRep
    (mkPattern ("[^" +:+ escapeLiteral special_characters +:+ "]")
       true true false) /\
  built_from (notLetter call minRep maxRep) call minRep maxRep
    (mkPattern "[^A-Za-z]" true true false) /\
  built_from (notUpper call minRep maxRep) call minRep maxRep
    (mkPattern "[^A-Z]" true true false) /\
  built_from (notLower call minRep maxRep) call minRep maxRep
    (mkPattern "[^a-z]" true true false) /\
  built_from (notDigit call minRep maxRep) call minRep maxRep
    (mkPattern "\D" false false false) /\
  built_from (notHexDigit call minRep maxRep) call minRep maxRep
    (mkPattern "[^A-Fa-f\d]" false false false) /\
  (forall h,
      result_of (notDigit receiver minRep maxRep h)
      = Return (Some (mkPattern "\D" false false false)) /\
      result_of (notHexDigit receiver minRep maxRep h)
      = Return (Some (mkPattern "[^A-Fa-f\d]" false false false)) /\
      result_of (notLetter receiver minRep maxRep h)
      = Return (Some (mkPattern "[^A-Za-z]" true true false))).
Proof.
  repeat split;
    try apply new_then_call;
    try apply (lit_then_new_then_call call special_characters "[^"
                 (Some true) (Some true));
    unfold result_of; cbn -[deref]; by rewrite deref_alloc.
Qed.

(** ** The quantifier applier and the composer, as specified *)

(** C5. quantify fails, and then with InvalidQuantifier, exactly when the
    repetition request is invalid.  With a minimum alone: the minimum is
    negative or zero, or the fragment is composite.  With both bounds: one
    of them is negative, the minimum exceeds the maximum, both are zero, or
    the fragment is composite.  A call without bounds is no request and
    hands the fragment back.  In particular quantify(f, 0, 0), every call
    with min > max, and quantify(composite, 1) fail. *)
Theorem quantify_fails_iff_invalid (f : Pattern) :
  quantify f NoBounds = Ok f /\
  (forall min,
      quantify f (Exactly min) = Fail InvalidQuantifier <->
      min < 0 \/ min = 0 \/ isComposite f = true) /\
  (forall min max,
      quantify f (Between min max) = Fail InvalidQuantifier <->
      min < 0 \/ max < 0 \/ min > max \/ (min = 0 /\ max = 0) \/
      isComposite f = true) /\
  (forall r k, quantify f r = Fail k -> k = InvalidQuantifier) /\
  quantify f (Between 0 0) = Fail InvalidQuantifier /\
  (forall min max, min > max ->
                   quantify f (Between min max) = Fail InvalidQuantifier) /\
  (isComposite f = true -> quantify f (Exactly 1) = Fail InvalidQuantifier) /\
  quantify (wrapped "(?=" (literal "abc")) (Exactly 1)
  = Fail InvalidQuantifier.
Proof.
  assert (HE : forall min,
             quantify f (Exactly min) = Fail InvalidQuantifier <->
             min < 0 \/ min = 0 \/ isComposite f = true).
  { intros min. unfold quantify.
    destruct (isComposite f); [intuition|].
    destruct (Z.ltb_spec min 0); [intuition|].
    destruct (Z.eqb_spec min 0); [intuition|].
    split; [discriminate|]. intros [?|[?|?]]; [lia|lia|discriminate]. }
  assert (HB : forall min max,
             quantify f (Between min max) = Fail InvalidQuantifier <->
             min < 0 \/ max < 0 \/ min > max \/ (min = 0 /\ max = 0) \/
             isComposite f = true).
  { intros min max. unfold quantify.
    destruct (isComposite f); [intuition|].
    destruct (Z.ltb_spec min 0); [intuition|].
    destruct (Z.ltb_spec max 0); [intuition|]. cbn [orb].
    destruct (Z.ltb_spec max min); [split; [intros _|reflexivity]; lia|].
    destruct (Z.eqb_spec min 0), (Z.eqb_spec max 0); cbn [andb];
      try (split; [intros _; tauto | reflexivity]);
      (split; [discriminate|]);
      intros [?|[?|[?|[[? ?]|?]]]]; try lia; discriminate. }
  split; [reflexivity|]. split; [exact HE|]. split; [exact HB|].
  split; [|split; [|split; [|split]]]; [| | | |reflexivity].
  - intros r k. destruct r as [|min|min max]; unfold quantify.
    + discriminate.
    + repeat match goal with
             | |- context [if ?b then _ else _] => destruct b
             end; congruence.
    + repeat match goal with
             | |- context [if ?b then _ else _] => destruct b
             end; congruence.
  - apply HB. right. right. right. left. split; reflexivity.
  - intros min max Hgt. apply HB. right. right. left. exact Hgt.
  - intros Hc. apply HE. right. right. exact Hc.
Qed.

(** C6. merge without any argument fails with InvalidArgument; merge of a
    single fragment [f] gives a fragment with the text of [f] that is
    marked non-atomic, whatever [f] was. *)
Theorem merge_none_and_single :
  merge [] = Fail InvalidArgument /\
  (forall f, exists g,
        merge [f] = Ok g /\ text g = text f /\ isAtomic g = false) /\
  (exists g, merge [mkPattern "[a-z]" true false false] = Ok g /\
             text g = "[a-z]" /\ isAtomic g = false).
Proof.
  split; [reflexivity|]. split.
  - intros f. eexists. split; [reflexivity|]. split; reflexivity.
  - eexists. split; [reflexivity|]. split; reflexivity.
Qed.

(** ** The core over the store: failures and purity *)

Lemma deliver_result (r : verdict) (h : heap) :
  result_of (deliver r h) =
  match r with
  | Ok g => Return (Some g)
  | Fail k => Throw (mkError k unspecified_message)
  end.
Proof.
  destruct r as [g|k]; [|reflexivity].
  unfold deliver, alloc, result_of. by rewrite deref_alloc.
Qed.

Lemma Pattern_call_result (this minRep maxRep : value) (h : heap) :
  result_of (Pattern_call this minRep maxRep h)
  = call_result (deref h this) minRep maxRep.
Proof.
  unfold Pattern_call, call_result.
  destruct (deref h this) as [f|] eqn:E; [|reflexivity].
  destruct (repetition_of minRep maxRep) as [[|min|min max]|];
    try reflexivity; try apply deliver_result.
  unfold ret, result_of. by rewrite E.
Qed.

Lemma simply_merge_result (args : list value) (h : heap) :
  result_of (simply_merge args h) = merge_result (fragments h args).
Proof.
  unfold simply_merge, merge_result.
  destruct (fragments h args) as [fs|]; [|reflexivity].
  apply deliver_result.
Qed.

Lemma fragments_agree (h1 h2 : heap) (args : list value) :
  Forall (fun v => deref h1 v = deref h2 v) args ->
  fragments h1 args = fragments h2 args.
Proof.
  induction 1 as [|v rest Hv _ IH]; [reflexivity|].
  cbn -[deref]. by rewrite Hv, IH.
Qed.

Lemma lookaround_store method opening v h c :
  without_bounds c = false ->
  store_effect c h (lookaround method opening v h).
Proof.
  intros Hc. rewrite lookaround_run. unfold store_effect.
  destruct (pattern_input h v) as [f|]; [|reflexivity].
  rewrite Hc. destruct v; cbn [converted];
    try (exists [], (wrapped opening f); by rewrite app_nil_r).
  exists [OPattern (literal s)], (wrapped opening f).
  by rewrite <- app_assoc.
Qed.

Lemma deliver_effect c r h :
  without_bounds c = false -> store_effect c h (deliver r h).
Proof.
  intros Hc. destruct r as [g|k]; [|reflexivity].
  unfold store_effect, deliver, alloc. rewrite Hc.
  exists [], g. by rewrite app_nil_r.
Qed.

Lemma perform_store (c : core_call) (h : heap) :
  store_effect c h (perform c h).
Proof.
  destruct c as [v|v|v|v|v|v|this minRep maxRep|args|s|t a n co];
    try (by apply lookaround_store).
  - unfold perform, Pattern_call.
    destruct (deref h this) as [f|]; [|reflexivity].
    destruct minRep, maxRep; try reflexivity; by apply deliver_effect.
  - unfold perform, simply_merge.
    destruct (fragments h args); [by apply deliver_effect | reflexivity].
  - unfold perform, lit, alloc, store_effect. simpl.
    exists [], (literal s). by rewrite app_nil_r.
  - unfold perform, alloc, store_effect. simpl.
    exists [], (makeFragment t a n co). by rewrite app_nil_r.
Qed.

(** C7. An error is the outcome of the very call that detects the
    violation, and a failed call is atomic: the store is left as it was, so
    no fragment has been constructed and no argument has been touched. *)
Theorem failed_call_is_atomic (c : core_call) (h h' : heap)
    (e : STRlingError) :
  perform c h = (h', Throw e) -> h' = h.
Proof.
  intros H. pose proof (perform_store c h) as E.
  rewrite H in E. exact E.
Qed.

Lemma failed_call_is_atomic_example :
  perform (call_ahead (VNumber 3)) [OOther]
  = ([OOther], Throw (mkError InvalidArgument (argument_message "ahead"))) /\
  [OOther] = [OOther].
Proof.
  split; [reflexivity|].
  apply (failed_call_is_atomic (call_ahead (VNumber 3)) [OOther] [OOther]
           (mkError InvalidArgument (argument_message "ahead"))).
  reflexivity.
Defined.

Lemma pattern_input_agree (h1 h2 : heap) (v : value) :
  deref h1 v = deref h2 v -> pattern_input h1 v = pattern_input h2 v.
Proof.
  destruct v; cbn -[deref]; congruence.
Qed.

(** Each constructor in terms of the common body. *)
Ltac as_lookaround :=
  change ahead with (lookaround "ahead" "(?=") in *;
  change notAhead with (lookaround "notAhead" "(?!") in *;
  change behind with (lookaround "behind" "(?<=") in *;
  change notBehind with (lookaround "notBehind" "(?<!") in *;
  change has with (lookaround "has" "(?=.*") in *;
  change hasNot with (lookaround "hasNot" "(?!.*") in *.

Lemma perform_result (c : core_call) (h1 h2 : heap) :
  same_fragments h1 h2 c ->
  result_of (perform c h1) = result_of (perform c h2).
Proof.
  unfold same_fragments.
  destruct c as [v|v|v|v|v|v|this minRep maxRep|args|s|t a n co];
    cbn [arguments perform]; intros Hargs; as_lookaround;
    try (apply Forall_cons_1 in Hargs as [Hv _];
         apply pattern_input_agree in Hv;
         rewrite !lookaround_result; by rewrite Hv).
  - apply Forall_cons_1 in Hargs as [Hv _].
    by rewrite !Pattern_call_result, Hv.
  - by rewrite !simply_merge_result, (fragments_agree _ _ _ Hargs).
  - unfold lit, alloc, result_of. by rewrite !deref_alloc.
  - unfold alloc, result_of. by rewrite !deref_alloc.
Qed.

Lemma fragments_defined (h : heap) (args : list value) (fs : list Pattern) :
  fragments h args = Some fs ->
  Forall (fun a => is_Some (deref h a)) args.
Proof.
  revert fs. induction args as [|a rest IH]; intros fs; [constructor|].
  cbn -[deref].
  destruct (deref h a) as [f|] eqn:Ea; [|discriminate].
  destruct (fragments h rest) as [gs|] eqn:Er; [|discriminate].
  intros _. constructor; [by eexists | by eapply IH].
Qed.

(** When a call returns, each argument is a fragment of the store, or a
    value that is a fragment in no store. *)
Lemma returned_arguments (c : core_call) (h h' : heap) (v : value) :
  perform c h = (h', Return v) ->
  Forall (fun a => is_Some (deref h a) \/ forall h2 : heap, deref h2 a = None)
    (arguments c).
Proof.
  destruct c as [a|a|a|a|a|a|this minRep maxRep|args|s|t at_ n co];
    cbn [arguments perform]; as_lookaround;
    try (rewrite lookaround_run;
         destruct (pattern_input h a) as [f|] eqn:E; [|discriminate];
         intros _; constructor; [|constructor];
         destruct a; try (right; reflexivity);
         left; cbn -[deref] in E; by eexists).
  - unfold Pattern_call.
    destruct (deref h this) as [f|] eqn:E; [|discriminate].
    intros _. constructor; [left; by eexists | constructor].
  - unfold simply_merge.
    destruct (fragments h args) as [fs|] eqn:E; [|discriminate].
    intros _. apply fragments_defined in E.
    eapply Forall_impl; [exact E|]. intros; by left.
  - intros _. constructor; [right; reflexivity | constructor].
  - intros _. constructor.
Qed.

(** The same call made twice in a row gives the same answer. *)
Lemma perform_twice (c : core_call) (h : heap) :
  result_of (perform c (perform c h).1) = result_of (perform c h).
Proof.
  pose proof (perform_store c h) as E.
  destruct (perform c h) as [h' [v|e]] eqn:Hrun; cbn [fst].
  - rewrite <- Hrun. symmetry. apply perform_result.
    assert (Hk : exists k : heap, h' = (h ++ k)%list).
    { unfold store_effect in E. destruct (without_bounds c).
      - exists []. by rewrite app_nil_r.
      - destruct E as (k & g & -> & _). by exists (k ++ [OPattern g])%list. }
    destruct Hk as [k ->].
    eapply Forall_impl; [exact (returned_arguments _ _ _ _ Hrun)|].
    intros a [[f Ha]|Ha]; cbn beta.
    + by rewrite Ha, (deref_extend _ k _ _ Ha).
    + by rewrite !Ha.
  - unfold store_effect in E. subst h'. by rewrite Hrun.
Qed.

(** C8. The operations are deterministic and referentially transparent:
    called with equal arguments, in stores where these stand for the same
    fragments, an operation hands back fragments with the same text and
    flags (or the same error), and so does the same call made twice in a
    row.  No operation changes a cell of the store:
    a fragment keeps the text and flags it was constructed with, and every
    transformation returns a fragment in a cell of its own. *)
Theorem operations_are_pure (c : core_call) (h1 h2 : heap) :
  same_fragments h1 h2 c ->
  result_of (perform c h1) = result_of (perform c h2) /\
  result_of (perform c (perform c h1).1) = result_of (perform c h1) /\
  (exists k : heap, (perform c h1).1 = (h1 ++ k)%list) /\
  (forall v f, deref h1 v = Some f -> deref (perform c h1).1 v = Some f) /\
  (forall v, (perform c h1).2 = Return v ->
             without_bounds c = false ->
             deref h1 v = None /\ is_Some (deref (perform c h1).1 v)).
Proof.
  intros Hsame. split; [by apply perform_result|].
  split; [apply perform_twice|].
  pose proof (perform_store c h1) as E.
  destruct (perform c h1) as [h' [v'|e]] eqn:Hrun; cbn [fst snd];
    unfold store_effect in E.
  - destruct (without_bounds c) eqn:Hc.
    + subst h'. split; [exists []; by rewrite app_nil_r|].
      split; [tauto|]. intros v _ Hno. discriminate Hno.
    + destruct E as (k & g & -> & ->).
      split; [by exists (k ++ [OPattern g])%list|].
      split; [intros v f Hv; by apply deref_extend|].
      intros v Hv _. inversion Hv; subst v. split.
      * apply deref_fresh. rewrite length_app. lia.
      * rewrite app_assoc, deref_alloc. by eexists.
  - subst h'. split; [exists []; by rewrite app_nil_r|].
    split; [tauto|]. intros v Hv. discriminate Hv.
Qed.

Lemma operations_are_pure_example :
  result_of (perform (call_notAhead (VObject 0))
               [OPattern (makeFragment "\d" None None None)])
  = result_of (perform (call_notAhead (VObject 0))
                 [OPattern (makeFragment "\d" None None None); OOther]).
Proof.
  refine (proj1 (operations_are_pure (call_notAhead (VObject 0))
                   [OPattern (makeFragment "\d" None None None)]
                   [OPattern (makeFragment "\d" None None None); OOther] _)).
  unfold same_fragments. simpl arguments.
  constructor; [reflexivity | constructor].
Defined.

(** ** The factories with [Pattern_call] for [call]: some runs *)

Example letter_two_to_four :
  rendered (letter Pattern_call (VNumber 2) (VNumber 4) [])
  = Some "[A-Za-z]{2,4}".
Proof. reflexivity. Qed.

Example digit_two_to_five :
  rendered (digit Pattern_call (VNumber 2) (VNumber 5) [])
  = Some "(?:\d){2,5}".
Proof. reflexivity. Qed.

Example digit_zero_to_zero :
  thrown (digit Pattern_call (VNumber 0) (VNumber 0) [])
  = Some (mkError InvalidQuantifier unspecified_message).
Proof. reflexivity. Qed.

Example notAhead_of_digit :
  rendered ((d <- digit Pattern_call VUndefined VUndefined;; notAhead d) [])
  = Some "(?!\d)".
Proof. reflexivity. Qed.

Example quantify_lookaround :
  thrown ((a <- ahead (VString "abc");;
           Pattern_call a (VNumber 1) VUndefined) [])
  = Some (mkError InvalidQuantifier unspecified_message).
Proof. reflexivity. Qed.

(** * Further properties of the source *)

(** ** Strings *)

Lemma append_length (a b : string) :
  String.length (a +:+ b) = (String.length a + String.length b)%nat.
Proof.
  induction a as [|c a IH]; simpl; [reflexivity | by rewrite IH].
Qed.

Lemma append_cancel_r (s1 s2 t : string) :
  s1 +:+ t = s2 +:+ t -> s1 = s2.
Proof.
  revert s2. induction s1 as [|c s1 IH]; intros [|d s2] H.
  - reflexivity.
  - apply (f_equal String.length) in H.
    rewrite !append_length in H. cbn in H. lia.
  - apply (f_equal String.length) in H.
    rewrite !append_length in H. cbn in H. lia.
  - cbn in H. injection H as -> H. f_equal. by apply IH.
Qed.

(** ** The lookaround constructors: composition *)

Lemma lookaround_bind_run (m : JS value) (k : value -> JS value) (h : heap) :
  (x <- m;; k x) h =
  match m h with
  | (h1, Return a) => k a h1
  | (h1, Throw e) => (h1, Throw e)
  end.
Proof. reflexivity. Qed.

Lemma pattern_input_alloc (h : heap) (f : Pattern) :
  pattern_input (h ++ [OPattern f])%list (VObject (length h)) = Some f.
Proof.
  unfold pattern_input. apply deref_alloc.
Qed.

Lemma pattern_input_extend (h k : heap) (v : value) (f : Pattern) :
  pattern_input h v = Some f -> pattern_input (h ++ k)%list v = Some f.
Proof.
  destruct v; cbn -[deref]; try discriminate;
    [tauto | by apply deref_extend].
Qed.

(** X1. A string argument is shorthand for its literal: the constructor does to
    the string exactly what it does to [lit] of the string, store included. *)
Theorem string_argument_is_lit (name opening : string)
    (op : value -> JS value) (s : string) (h : heap) :
  In (name, opening, op) constructors ->
  op (VString s) h = (p <- lit s;; op p) h.
Proof.
  intros Hop. rewrite (constructors_lookaround _ _ _ Hop).
  rewrite lookaround_bind_run. unfold lit, alloc.
  rewrite !lookaround_run. cbn [pattern_input converted].
  by rewrite deref_alloc.
Qed.

Lemma string_argument_is_lit_example :
  behind (VString "a+b") [OOther] = (p <- lit "a+b";; behind p) [OOther].
Proof.
  apply (string_argument_is_lit "behind" "(?<=" behind "a+b" [OOther]).
  simpl. do 2 right. left. reflexivity.
Defined.

(** X2. Nesting: what a constructor returns is accepted by every constructor,
    and the outer group is written around the inner one. *)
Theorem lookaround_nests (inner outer opening_in opening_out : string)
    (op_in op_out : value -> JS value) (h : heap) (v : value) (P : Pattern) :
  In (inner, opening_in, op_in) constructors ->
  In (outer, opening_out, op_out) constructors ->
  pattern_input h v = Some P ->
  result_of ((x <- op_in v;; op_out x) h)
  = Return (Some (wrapped opening_out (wrapped opening_in P))) /\
  rendered ((x <- op_in v;; op_out x) h)
  = Some (opening_out +:+ (opening_in +:+ text P +:+ ")") +:+ ")").
Proof.
  intros Hin Hout HP.
  rewrite (constructors_lookaround _ _ _ Hin).
  rewrite (constructors_lookaround _ _ _ Hout).
  assert (G : result_of ((x <- lookaround inner opening_in v;;
                          lookaround outer opening_out x) h)
              = Return (Some (wrapped opening_out (wrapped opening_in P)))).
  { rewrite lookaround_bind_run, lookaround_run, HP.
    by rewrite lookaround_result, pattern_input_alloc. }
  split; [exact G|]. unfold rendered. by rewrite G.
Qed.

Lemma lookaround_nests_example :
  rendered ((x <- notAhead (VString "ab");; behind x) [])
  = Some "(?<=(?!ab))".
Proof.
  refine (proj2 (lookaround_nests "notAhead" "behind" "(?!" "(?<=" notAhead
                   behind [] (VString "ab") (literal "ab") _ _ eq_refl)).
  - simpl. right. left. reflexivity.
  - simpl. do 2 right. left. reflexivity.
Defined.

(** X3. [has] is [ahead] of the pattern with [.*] in front, and [hasNot] is
    [notAhead] of it: the returned fragments coincide. *)
Theorem has_is_ahead_of_anything_then (h h' : heap) (v w : value)
    (P Q : Pattern) :
  pattern_input h v = Some P ->
  pattern_input h' w = Some Q ->
  text Q = ".*" +:+ text P ->
  result_of (has v h) = result_of (ahead w h') /\
  result_of (hasNot v h) = result_of (notAhead w h').
Proof.
  intros HP HQ Ht. as_lookaround.
  rewrite !lookaround_result, HP, HQ. unfold wrapped. by rewrite Ht.
Qed.

Lemma has_is_ahead_of_anything_then_example :
  result_of (has (VString "x") [])
  = result_of (ahead (VObject 0) [OPattern (makeFragment ".*x" None None None)])
  /\ result_of (hasNot (VString "x") [])
  = result_of (notAhead (VObject 0)
                 [OPattern (makeFragment ".*x" None None None)]).
Proof.
  apply (has_is_ahead_of_anything_then []
           [OPattern (makeFragment ".*x" None None None)]
           (VString "x") (VObject 0)
           (literal "x") (makeFragment ".*x" None None None));
    reflexivity.
Defined.

(** X4. Only the text of the argument counts: arguments with the same text, in
    whatever store and with whatever flags, give the same fragment. *)
Theorem lookaround_reads_text_only (name opening : string)
    (op : value -> JS value) (h1 h2 : heap) (v1 v2 : value) (P1 P2 : Pattern) :
  In (name, opening, op) constructors ->
  pattern_input h1 v1 = Some P1 ->
  pattern_input h2 v2 = Some P2 ->
  text P1 = text P2 ->
  result_of (op v1 h1) = result_of (op v2 h2).
Proof.
  intros Hop H1 H2 Ht. rewrite (constructors_lookaround _ _ _ Hop).
  rewrite !lookaround_result, H1, H2. unfold wrapped. by rewrite Ht.
Qed.

Lemma lookaround_reads_text_only_example :
  result_of (ahead (VObject 0) [OPattern (mkPattern "[^a]" true true false)])
  = result_of (ahead (VObject 1)
                 [OOther; OPattern (mkPattern "[^a]" false false true)]).
Proof.
  apply (lookaround_reads_text_only "ahead" "(?=" ahead
           [OPattern (mkPattern "[^a]" true true false)]
           [OOther; OPattern (mkPattern "[^a]" false false true)]
           (VObject 0) (VObject 1)
           (mkPattern "[^a]" true true false)
           (mkPattern "[^a]" false false true));
    try reflexivity.
  simpl. left. reflexivity.
Defined.

(** X5. An argument is not used up: after any constructor has run, on whatever
    argument, a valid argument gives every constructor the fragment it gave
    before. *)
Theorem argument_can_be_reused (first second opening1 opening2 : string)
    (op1 op2 : value -> JS value) (h : heap) (w v : value) (P : Pattern) :
  In (first, opening1, op1) constructors ->
  In (second, opening2, op2) constructors ->
  pattern_input h v = Some P ->
  result_of (op2 v (op1 w h).1) = result_of (op2 v h).
Proof.
  intros H1 H2 HP.
  rewrite (constructors_lookaround _ _ _ H1).
  rewrite (constructors_lookaround _ _ _ H2).
  rewrite !lookaround_result, HP.
  rewrite lookaround_run.
  destruct (pattern_input h w) as [Q|]; cbn [fst]; [|by rewrite HP].
  assert (E : pattern_input
                (converted h w ++ [OPattern (wrapped opening1 Q)])%list v
              = Some P).
  { apply pattern_input_extend.
    destruct w; cbn [converted]; try exact HP.
    by apply pattern_input_extend. }
  by rewrite E.
Qed.

Lemma argument_can_be_reused_example :
  result_of (behind (VObject 0)
               (ahead (VObject 0)
                  [OPattern (makeFragment "\d" None None None)]).1)
  = result_of (behind (VObject 0)
                 [OPattern (makeFragment "\d" None None None)]).
Proof.
  apply (argument_can_be_reused "ahead" "behind" "(?=" "(?<=" ahead behind
           [OPattern (makeFragment "\d" None None None)]
           (VObject 0) (VObject 0) (makeFragment "\d" None None None)).
  - simpl. left. reflexivity.
  - simpl. do 2 right. left. reflexivity.
  - reflexivity.
Defined.

(** ** The lookaround constructors: telling results and errors apart *)

Lemma append_cancel_l (o a b : string) :
  o +:+ a = o +:+ b -> a = b.
Proof.
  induction o as [|c o IH]; cbn; [tauto|].
  intros H. injection H as H. by apply IH.
Qed.

Lemma constructors_opening name1 name2 opening op1 op2 :
  In (name1, opening, op1) constructors ->
  In (name2, opening, op2) constructors ->
  name1 = name2.
Proof.
  unfold constructors. simpl. intros H1 H2.
  repeat destruct H1 as [H1|H1]; inversion H1; subst;
    repeat destruct H2 as [H2|H2]; inversion H2; reflexivity.
Qed.

Lemma lookaround_rendered (method opening : string) (v : value) (h : heap)
    (P : Pattern) :
  pattern_input h v = Some P ->
  rendered (lookaround method opening v h)
  = Some (opening +:+ text P +:+ ")").
Proof.
  intros HP. unfold rendered. by rewrite lookaround_result, HP.
Qed.

(** X6. Two different constructors never render the same text for patterns
    with the same text. *)
Theorem constructors_render_apart (name1 name2 opening1 opening2 : string)
    (op1 op2 : value -> JS value) (h1 h2 : heap) (v1 v2 : value)
    (P1 P2 : Pattern) :
  In (name1, opening1, op1) constructors ->
  In (name2, opening2, op2) constructors ->
  pattern_input h1 v1 = Some P1 ->
  pattern_input h2 v2 = Some P2 ->
  text P1 = text P2 ->
  rendered (op1 v1 h1) = rendered (op2 v2 h2) ->
  name1 = name2.
Proof.
  intros Hop1 Hop2 HP1 HP2 Ht.
  rewrite (constructors_lookaround _ _ _ Hop1).
  rewrite (constructors_lookaround _ _ _ Hop2).
  rewrite (lookaround_rendered _ _ _ _ _ HP1).
  rewrite (lookaround_rendered _ _ _ _ _ HP2).
  rewrite Ht. intros H. injection H as H.
  apply append_cancel_r in H. subst opening2.
  by eapply constructors_opening.
Qed.

Lemma constructors_render_apart_example :
  rendered (has (VString "a") []) = rendered (has (VString "a") [OOther]) /\
  "has" = "has".
Proof.
  split; [reflexivity|].
  apply (constructors_render_apart "has" "has" "(?=.*" "(?=.*" has has
           [] [OOther] (VString "a") (VString "a") (literal "a") (literal "a"));
    try reflexivity.
  - simpl. do 4 right. left. reflexivity.
  - simpl. do 4 right. left. reflexivity.
Defined.

(** X7. For one constructor the rendering determines the text of the pattern:
    different texts are never wrapped into the same rendering. *)
Theorem rendering_determines_text (name opening : string)
    (op : value -> JS value) (h1 h2 : heap) (v1 v2 : value) (P1 P2 : Pattern) :
  In (name, opening, op) constructors ->
  pattern_input h1 v1 = Some P1 ->
  pattern_input h2 v2 = Some P2 ->
  rendered (op v1 h1) = rendered (op v2 h2) ->
  text P1 = text P2.
Proof.
  intros Hop HP1 HP2. rewrite (constructors_lookaround _ _ _ Hop).
  rewrite (lookaround_rendered _ _ _ _ _ HP1).
  rewrite (lookaround_rendered _ _ _ _ _ HP2).
  intros H. injection H as H.
  apply append_cancel_l in H. by apply append_cancel_r in H.
Qed.

Lemma rendering_determines_text_example :
  text (mkPattern "ab" true true false) = text (literal "ab").
Proof.
  apply (rendering_determines_text "notBehind" "(?<!" notBehind
           [OPattern (mkPattern "ab" true true false)]
           [OOther] (VObject 0) (VString "ab")
           (mkPattern "ab" true true false) (literal "ab"));
    try reflexivity.
  simpl. do 3 right. left. reflexivity.
Defined.

(** X8. The message of the error tells which constructor rejected its argument:
    it names that constructor and none of the other five. *)
Theorem message_identifies_constructor (name other opening opening' : string)
    (op op' : value -> JS value) (h : heap) (v : value) (e : STRlingError) :
  In (name, opening, op) constructors ->
  In (other, opening', op') constructors ->
  thrown (op v h) = Some e ->
  (mentions ("simply." +:+ other +:+ "(") (message e) = true <->
   other = name).
Proof.
  intros Hop Hop'. rewrite (constructors_lookaround _ _ _ Hop).
  rewrite lookaround_thrown.
  destruct (pattern_input h v); [discriminate|].
  intros He. injection He as <-. cbn [message].
  unfold constructors in Hop, Hop'. simpl in Hop, Hop'.
  repeat destruct Hop as [Hop|Hop]; inversion Hop; subst;
    repeat destruct Hop' as [Hop'|Hop']; inversion Hop'; subst;
    vm_compute; split; intros E; first [reflexivity | discriminate E].
Qed.

Lemma message_identifies_constructor_example :
  mentions ("simply." +:+ "has" +:+ "(")
    (argument_message "hasNot") = true <-> "has" = "hasNot".
Proof.
  apply (message_identifies_constructor "hasNot" "has" "(?!.*" "(?=.*"
           hasNot has [] VNull
           (mkError InvalidArgument (argument_message "hasNot"))).
  - simpl. do 5 right. left. reflexivity.
  - simpl. do 4 right. left. reflexivity.
  - reflexivity.
Defined.

(** ** The factories: what holds of all of them *)

Lemma factories_built (name : string) (fac : factory) :
  In (name, fac) factories ->
  exists f, fragment_of fac = Some f /\
            isComposite f = false /\
            text f <> "" /\
            forall call minRep maxRep,
              built_from (fac call minRep maxRep) call minRep maxRep f.
Proof.
  unfold factories. simpl. intros H.
  repeat destruct H as [H|H]; inversion H; subst;
    (eexists; split; [vm_compute; reflexivity|];
     split; [reflexivity|]; split; [discriminate|]; intros;
     first [ apply new_then_call
           | apply (lit_then_new_then_call call special_characters "["
                      (Some true) None)
           | apply (lit_then_new_then_call call special_characters "[^"
                      (Some true) (Some true)) ]).
Qed.

(** X9. Every factory builds one fragment of its own, never composite and never
    empty, and hands it to [call] together with its two bounds, unchanged
    and in order; what [call] answers, value or error, is the answer of the
    factory.  The cells already in the store stay as they are. *)
Theorem factory_forwards (name : string) (fac : factory) :
  In (name, fac) factories ->
  exists f, fragment_of fac = Some f /\
            isComposite f = false /\
            text f <> "" /\
            forall call minRep maxRep,
              built_from (fac call minRep maxRep) call minRep maxRep f.
Proof.
  apply factories_built.
Qed.

Lemma factory_forwards_example :
  exists f, fragment_of whitespace = Some f /\
            isComposite f = false /\
            text f <> "" /\
            forall call minRep maxRep,
              built_from (whitespace call minRep maxRep) call minRep maxRep f.
Proof.
  apply (factory_forwards "whitespace" whitespace).
  simpl. do 14 right. left. reflexivity.
Defined.

(** X10. The flags a factory sets fit the text: a factory that marks its
    fragment as negated also marks it as a class of its own, and the text
    then opens with [[^]; a fragment marked as a class is a bracket
    expression. *)
Theorem factory_flags_fit_text (name : string) (fac : factory) (f : Pattern) :
  In (name, fac) factories ->
  fragment_of fac = Some f ->
  (isNegatedClass f = true ->
   isAtomic f = true /\ starts_with "[^" (text f) = true) /\
  (isAtomic f = true ->
   starts_with "[" (text f) = true /\ ends_with "]" (text f) = true).
Proof.
  unfold factories. simpl. intros H.
  repeat destruct H as [H|H]; inversion H; subst;
    vm_compute; intros E; injection E as <-;
    split; intros F; first [discriminate F | split; reflexivity].
Qed.

Lemma factory_flags_fit_text_example :
  (isNegatedClass (mkPattern "[^a-z]" true true false) = true ->
   isAtomic (mkPattern "[^a-z]" true true false) = true /\
   starts_with "[^" (text (mkPattern "[^a-z]" true true false)) = true) /\
  (isAtomic (mkPattern "[^a-z]" true true false) = true ->
   starts_with "[" (text (mkPattern "[^a-z]" true true false)) = true /\
   ends_with "]" (text (mkPattern "[^a-z]" true true false)) = true).
Proof.
  apply (factory_flags_fit_text "notLower" notLower
           (mkPattern "[^a-z]" true true false)).
  - simpl. do 9 right. left. reflexivity.
  - reflexivity.
Defined.

(** X11. No two exported functions of the factory module construct the same
    text, except notNewline and notCarriage, which both construct [.]. *)
Theorem exported_texts_differ (name1 name2 t : string) :
  In (name1, t) exported_texts ->
  In (name2, t) exported_texts ->
  name1 = name2 \/
  ((name1 = "notNewline" \/ name1 = "notCarriage") /\
   (name2 = "notNewline" \/ name2 = "notCarriage") /\ t = ".").
Proof.
  intros H1 H2. vm_compute in H1. vm_compute in H2.
  repeat destruct H1 as [H1|H1]; try contradiction;
    injection H1 as <- <-;
    repeat destruct H2 as [H2|H2]; try contradiction;
    first [ discriminate H2
          | injection H2 as <-;
            first [ left; reflexivity
                  | right; repeat split;
                    first [left; reflexivity | right; reflexivity] ] ].
Qed.

Lemma exported_texts_differ_example :
  "notCarriage" = "notNewline" \/
  (("notCarriage" = "notNewline" \/ "notCarriage" = "notCarriage") /\
   ("notNewline" = "notNewline" \/ "notNewline" = "notCarriage") /\
   "." = ".").
Proof.
  apply (exported_texts_differ "notCarriage" "notNewline" ".").
  - vm_compute. do 21 right. left. reflexivity.
  - vm_compute. do 17 right. left. reflexivity.
Defined.

(** X12. A class factory and its negation construct bracket expressions over the
    very same body, the negation with [^] in front; both carry the same
    class mark, and the negation is marked negated exactly when it carries
    that mark. *)
Theorem negation_keeps_class_body (pos neg : factory)
    (call : value -> value -> value -> JS value) (minRep maxRep : value) :
  In (pos, neg) class_pairs ->
  exists (body : string) (mark : bool),
    built_from (pos call minRep maxRep) call minRep maxRep
      (mkPattern ("[" +:+ body +:+ "]") mark false false) /\
    built_from (neg call minRep maxRep) call minRep maxRep
      (mkPattern ("[^" +:+ body +:+ "]") mark mark false).
Proof.
  unfold class_pairs. simpl. intros H.
  repeat destruct H as [H|H]; inversion H; subst.
  - exists "A-Za-z0-9", true. split; apply new_then_call.
  - exists (escapeLiteral special_characters), true. split.
    + apply (lit_then_new_then_call call special_characters "["
               (Some true) None).
    + apply (lit_then_new_then_call call special_characters "[^"
               (Some true) (Some true)).
  - exists "A-Za-z", true. split; apply new_then_call.
  - exists "A-Z", true. split; apply new_then_call.
  - exists "a-z", true. split; apply new_then_call.
  - exists "A-Fa-f\d", false. split; apply new_then_call.
Qed.

Lemma negation_keeps_class_body_example :
  exists (body : string) (mark : bool),
    built_from (hexDigit receiver (VNumber 2) VUndefined) receiver
      (VNumber 2) VUndefined
      (mkPattern ("[" +:+ body +:+ "]") mark false false) /\
    built_from (notHexDigit receiver (VNumber 2) VUndefined) receiver
      (VNumber 2) VUndefined
      (mkPattern ("[^" +:+ body +:+ "]") mark mark false).
Proof.
  apply (negation_keeps_class_body hexDigit notHexDigit receiver
           (VNumber 2) VUndefined).
  simpl. do 5 right. left. reflexivity.
Defined.

(** X13. The characters listed for specialChar and notSpecialChar are exactly
    the printable ASCII characters that are no letter, no digit and not the
    space: all 32 of them, each listed once. *)
Theorem special_characters_are_the_punctuation :
  (forall c : ascii, one_of special_characters c = is_punctuation c) /\
  no_repeat (list_ascii_of_string special_characters) = true /\
  String.length special_characters = 32%nat.
Proof.
  split; [|split; reflexivity].
  intros [[] [] [] [] [] [] [] []]; vm_compute; reflexivity.
Qed.

(** X14. Among the exported functions whose text is a backslash and one
    character, notTab is the only one whose character has no meaning of its
    own in the dialect, so that the escape stands for the character
    itself. *)
Theorem notTab_is_the_only_identity_escape (name t : string) (c : ascii) :
  In (name, t) exported_texts ->
  t = String "\" (String c EmptyString) ->
  ((exists c', escape_of c = IdentityEscape c') <-> name = "notTab").
Proof.
  intros H. vm_compute in H.
  repeat destruct H as [H|H]; try contradiction;
    injection H as <- <-; intros E;
    first [ discriminate E
          | injection E as <-; vm_compute; split;
            [ intros [c' F]; first [reflexivity | discriminate F]
            | intros F; first [discriminate F | by eexists] ] ].
Qed.

Lemma notTab_is_the_only_identity_escape_example :
  (exists c', escape_of "D" = IdentityEscape c') <-> "notDigit" = "notTab".
Proof.
  apply (notTab_is_the_only_identity_escape "notDigit" "\D" "D").
  - vm_compute. do 11 right. left. reflexivity.
  - reflexivity.
Defined.

(** X15. A fragment obtained from a factory without bounds goes into every
    lookaround constructor, which wraps the text of the factory; this holds
    for any [call] that hands back its receiver when no bound is given. *)
Theorem lookaround_of_factory (fname name opening : string) (fac : factory)
    (op : value -> JS value) (f : Pattern)
    (call : value -> value -> value -> JS value) (h : heap) :
  In (fname, fac) factories ->
  In (name, opening, op) constructors ->
  fragment_of fac = Some f ->
  (forall this k g, deref k this = Some g ->
                    call this VUndefined VUndefined k = (k, Return this)) ->
  result_of ((x <- fac call VUndefined VUndefined;; op x) h)
  = Return (Some (wrapped opening f)).
Proof.
  intros Hfac Hop Hf Hcall.
  destruct (factories_built _ _ Hfac) as (f' & Hf' & _ & _ & Hbuilt).
  rewrite Hf in Hf'. injection Hf' as <-.
  destruct (Hbuilt call VUndefined VUndefined h) as [k Hrun].
  rewrite (constructors_lookaround _ _ _ Hop).
  rewrite lookaround_bind_run, Hrun.
  assert (Hd : deref (h ++ k ++ [OPattern f])%list
                 (VObject (length (h ++ k)%list)) = Some f).
  { rewrite app_assoc. apply deref_alloc. }
  rewrite (Hcall _ _ _ Hd), lookaround_result.
  unfold pattern_input. by rewrite Hd.
Qed.

Lemma lookaround_of_factory_example :
  result_of ((x <- letter receiver VUndefined VUndefined;; ahead x) [OOther])
  = Return (Some (mkPattern "(?=[A-Za-z])" false false true)).
Proof.
  apply (lookaround_of_factory "letter" "ahead" "(?=" letter ahead
           (mkPattern "[A-Za-z]" true false false) receiver [OOther]).
  - simpl. do 4 right. left. reflexivity.
  - simpl. left. reflexivity.
  - reflexivity.
  - intros this k g _. reflexivity.
Defined.

(** [Pattern_call] is such a [call]. *)
Example Pattern_call_without_bounds (this : value) (k : heap) (g : Pattern) :
  deref k this = Some g ->
  Pattern_call this VUndefined VUndefined k = (k, Return this).
Proof.
  intros H. unfold Pattern_call. by rewrite H.
Qed.
